(** * Web Connectivity: the blocking summary

    A shallow embedding of [Summarize] and [DetermineBlocking] of package
    [webconnectivity] (the second Go file stored in
    [src/experiment/dash/play.go]), with the properties of the blocking
    classification proved about the embedding.

    Go pointers to scalars ([*bool], [*string]) are [option]s; dereferencing
    [nil] and indexing a slice out of range are the two run-time panics of
    the fragment of Go the function uses, and they are kept explicit in the
    [Go.result] monad, so that "the function returns" is a theorem and not an
    assumption of the model. *)

From Stdlib Require Import String List ZArith Bool Lia.
Import ListNotations.

Local Open Scope string_scope.
Local Open Scope Z_scope.

(** ** The fragment of the Go run time that [Summarize] relies on *)

Module Go.

Inductive panic : Type :=
| NilDereference
| IndexOutOfRange.

Inductive result (A : Type) : Type :=
| Ok (a : A)
| Panic (p : panic).

Arguments Ok {A} a.
Arguments Panic {A} p.

Definition bind {A B : Type} (c : result A) (k : A -> result B) : result B :=
  match c with
  | Ok a => k a
  | Panic p => Panic p
  end.

(** [*p] *)
Definition deref {A : Type} (p : option A) : result A :=
  match p with
  | Some a => Ok a
  | None => Panic NilDereference
  end.

(** [s[i]] *)
Definition index {A : Type} (s : list A) (i : nat) : result A :=
  match nth_error s i with
  | Some a => Ok a
  | None => Panic IndexOutOfRange
  end.

(** [a && b]: the right operand is evaluated only when the left one is
    true. *)
Definition and_then (a b : result bool) : result bool :=
  bind a (fun x => if x then b else Ok false).

(** [p == nil] and [p != nil] *)
Definition is_nil {A : Type} (p : option A) : bool :=
  match p with
  | Some _ => false
  | None => true
  end.

Definition not_nil {A : Type} (p : option A) : bool := negb (is_nil p).

(** [len(s)], an [int] *)
Definition len {A : Type} (s : list A) : Z := Z.of_nat (length s).

(** [strings.HasPrefix(s, prefix)] *)
Definition HasPrefix (s prefix : string) : bool := String.prefix prefix s.

End Go.

Import Go.

Declare Scope go_scope.
Delimit Scope go_scope with go.
Notation "x <- c ;; k" := (Go.bind c (fun x => k))
  (at level 61, c at next level, right associativity) : go_scope.
Notation "a &&& b" := (Go.and_then a b)
  (at level 40, left associativity) : go_scope.
Local Open Scope go_scope.

(** ** Constants and types declared outside the file *)

Module modelx.

(** Modelled from the spec: the failure constants of package [modelx] are
    declared outside the sources at hand; the data model lists their string
    identifiers. *)
Definition FailureConnectionRefused : string := "connection_refused".
Definition FailureConnectionReset : string := "connection_reset".
Definition FailureDNSNXDOMAINError : string := "dns_nxdomain_error".
Definition FailureEOFError : string := "eof_error".
Definition FailureGenericTimeoutError : string := "generic_timeout_error".
Definition FailureSSLInvalidHostname : string := "ssl_invalid_hostname".
Definition FailureSSLInvalidCertificate : string := "ssl_invalid_certificate".
Definition FailureSSLUnknownAuthority : string := "ssl_unknown_authority".

End modelx.

Module archival.

(** Modelled from the spec: the request entries of package [archival] are
    declared outside the sources at hand. [Summarize] reads the URL of the
    request and the optional failure of the entry, nothing else. *)
Record HTTPRequest : Type := { URL : string }.

Record RequestEntry : Type := {
  Failure : option string;
  Request : HTTPRequest
}.

End archival.

Module webconnectivity.

(** Modelled from the spec: the two values of the DNS consistency verdict
    are declared outside the sources at hand. The verdict is a pointer that
    [Summarize] dereferences and switches on with a [default] case, so
    the type has values other than these two. *)
Definition DNSConsistent : string := "consistent".
Definition DNSInconsistent : string := "inconsistent".

(** Modelled from the spec: the control response, of which [Summarize]
    reads [Control.HTTPRequest.Failure] without any test on the two outer
    selectors, which are therefore struct values. *)
Record ControlHTTPRequestResult : Type := { HTTPFailure : option string }.

Record ControlResponse : Type := { HTTPRequest : ControlHTTPRequestResult }.

(** Modelled from the spec: the test keys, declared outside the sources at
    hand; these are the fields that [Summarize] reads. The two counters are
    Go [int]s, which are only compared with zero. *)
Record TestKeys : Type := {
  DNSExperimentFailure : option string;
  DNSConsistency : option string;
  ControlFailure : option string;
  Control : ControlResponse;
  TCPConnectSuccesses : Z;
  TCPConnectAttempts : Z;
  Requests : list archival.RequestEntry;
  StatusCodeMatch : option bool;
  BodyLengthMatch : option bool;
  HeadersMatch : option bool;
  TitleMatch : option bool
}.

(** The dynamic values that [Summary.Blocking], an [interface{}], holds:
    the zero interface, a [bool], or a [*string] (possibly a nil one). *)
Inductive BlockingValue : Type :=
| BlockingUnset
| BlockingBool (b : bool)
| BlockingString (p : option string).

Record Summary : Type := {
  Accessible : option bool;
  BlockingReason : option string;
  Blocking : BlockingValue
}.

(** What [json:"blocking"] puts on the wire for each dynamic value. *)
Inductive json : Type :=
| JNull
| JFalse
| JTrue
| JString (s : string).

Definition render (v : BlockingValue) : json :=
  match v with
  | BlockingUnset => JNull
  | BlockingBool true => JTrue
  | BlockingBool false => JFalse
  | BlockingString None => JNull
  | BlockingString (Some s) => JString s
  end.

Definition zero_Summary : Summary :=
  {| Accessible := None; BlockingReason := None; Blocking := BlockingUnset |}.

Definition set_Accessible (out : Summary) (p : option bool) : Summary :=
  {| Accessible := p;
     BlockingReason := BlockingReason out;
     Blocking := Blocking out |}.

Definition set_BlockingReason (out : Summary) (p : option string) : Summary :=
  {| Accessible := Accessible out;
     BlockingReason := p;
     Blocking := Blocking out |}.

Definition set_Blocking (out : Summary) (v : BlockingValue) : Summary :=
  {| Accessible := Accessible out;
     BlockingReason := BlockingReason out;
     Blocking := v |}.

(** [DetermineBlocking] *)
Definition DetermineBlocking (s : Summary) : result BlockingValue :=
  c <- Ok (not_nil (Accessible s))
       &&& (a <- deref (Accessible s) ;; Ok (Bool.eqb a true)) ;;
  if c then Ok (BlockingBool false)
  else Ok (BlockingString (BlockingReason s)).

(** The local variables of [Summarize] whose addresses go into [out]. *)
Definition accessible : bool := true.
Definition inaccessible : bool := false.
Definition dns : string := "dns".
Definition httpDiff : string := "http-diff".
Definition httpFailure : string := "http-failure".
Definition tcpIP : string := "tcp_ip".

(** Both assignments of a blocking case, in the order of the source. *)
Definition blocked (out : Summary) (reason : string) : Summary :=
  set_Accessible (set_BlockingReason out (Some reason)) (Some inaccessible).

(** The [switch *tk.DNSConsistency] of the TCP connect rule. *)
Definition switch_DNSConsistency (d : string) (out : Summary) : Summary :=
  if (d =? DNSConsistent)%string then blocked out tcpIP
  else if (d =? DNSInconsistent)%string then blocked out dns
  else out.

(** The [switch *tk.Requests[0].Failure] of the failed first request. *)
Definition switch_Failure (f : string) (out : Summary) : Summary :=
  if (f =? modelx.FailureConnectionRefused)%string then blocked out tcpIP
  else if (f =? modelx.FailureConnectionReset)%string
  then blocked out httpFailure
  else if (f =? modelx.FailureDNSNXDOMAINError)%string then blocked out dns
  else if (f =? modelx.FailureEOFError)%string then blocked out httpFailure
  else if (f =? modelx.FailureGenericTimeoutError)%string
  then blocked out tcpIP
  else if ((f =? modelx.FailureSSLInvalidHostname)%string
           || (f =? modelx.FailureSSLInvalidCertificate)%string
           || (f =? modelx.FailureSSLUnknownAuthority)%string)%bool
  then blocked out httpFailure
  else out.

(** The body of [Summarize], on the named result [out]; each [Ok] that
    ends a branch is one of the [return]s of the source. *)
Definition Summarize_body (tk : TestKeys) (out : Summary) : result Summary :=
  c <- Ok (0 <? len (Requests tk))
       &&& (r <- index (Requests tk) 0 ;; Ok (is_nil (archival.Failure r)))
       &&& (r <- index (Requests tk) 0 ;;
            Ok (HasPrefix (archival.URL (archival.Request r)) "https://")) ;;
  if c then Ok (set_Accessible out (Some accessible)) else
  if not_nil (ControlFailure tk) then Ok out else
  c <- Ok (not_nil (DNSExperimentFailure tk))
       &&& (f <- deref (DNSExperimentFailure tk) ;;
            Ok (f =? modelx.FailureDNSNXDOMAINError)%string)
       &&& Ok (not_nil (DNSConsistency tk))
       &&& (d <- deref (DNSConsistency tk) ;; Ok (d =? DNSConsistent)%string) ;;
  if c then Ok out else
  if (0 <? TCPConnectAttempts tk) && (TCPConnectSuccesses tk <=? 0)
     && not_nil (DNSConsistency tk)
  then d <- deref (DNSConsistency tk) ;; Ok (switch_DNSConsistency d out) else
  if not_nil (HTTPFailure (HTTPRequest (Control tk))) then Ok out else
  if len (Requests tk) <? 1 then Ok out else
  r <- index (Requests tk) 0 ;;
  if not_nil (archival.Failure r) then
    f <- (r <- index (Requests tk) 0 ;; deref (archival.Failure r)) ;;
    let out := switch_Failure f out in
    c <- Ok (not_nil (BlockingReason out))
         &&& Ok (len (Requests tk) =? 1)
         &&& Ok (not_nil (DNSConsistency tk))
         &&& (d <- deref (DNSConsistency tk) ;;
              Ok (d =? DNSInconsistent)%string) ;;
    if c then Ok (set_BlockingReason out (Some dns)) else Ok out
  else
  let fallthrough :=
    c <- Ok (not_nil (DNSConsistency tk))
         &&& (d <- deref (DNSConsistency tk) ;;
              Ok (d =? DNSInconsistent)%string) ;;
    if c then Ok (blocked out dns) else
    Ok (blocked out httpDiff) in
  c <- Ok (not_nil (StatusCodeMatch tk)) &&& deref (StatusCodeMatch tk) ;;
  if c then
    c <- Ok (not_nil (BodyLengthMatch tk)) &&& deref (BodyLengthMatch tk) ;;
    if c then Ok (set_Accessible out (Some accessible)) else
    c <- Ok (not_nil (HeadersMatch tk)) &&& deref (HeadersMatch tk) ;;
    if c then Ok (set_Accessible out (Some accessible)) else
    c <- Ok (not_nil (TitleMatch tk)) &&& deref (TitleMatch tk) ;;
    if c then Ok (set_Accessible out (Some accessible)) else
    fallthrough
  else fallthrough.

(** [Summarize]: the body, then the deferred function that sets
    [out.Blocking] on whichever [return] was taken. The argument is the
    record that the pointer [tk] of the source points to. *)
Definition Summarize (tk : TestKeys) : result Summary :=
  out <- Summarize_body tk zero_Summary ;;
  b <- DetermineBlocking out ;;
  Ok (set_Blocking out b).

(** ** The rules as conditions on the record

    Each condition is the guard of one [if] of the source, with the
    presence tests and the dereferences folded into a [match]. *)

Definition https_shortcut (tk : TestKeys) : bool :=
  match Requests tk with
  | r :: _ =>
      is_nil (archival.Failure r)
      && HasPrefix (archival.URL (archival.Request r)) "https://"
  | [] => false
  end.

Definition nxdomain_consistent (tk : TestKeys) : bool :=
  match DNSExperimentFailure tk, DNSConsistency tk with
  | Some f, Some d =>
      (f =? modelx.FailureDNSNXDOMAINError)%string
      && (d =? DNSConsistent)%string
  | _, _ => false
  end.

Definition tcp_total_failure (tk : TestKeys) : bool :=
  (0 <? TCPConnectAttempts tk) && (TCPConnectSuccesses tk <=? 0)
  && not_nil (DNSConsistency tk).

Definition dns_inconsistent (tk : TestKeys) : bool :=
  match DNSConsistency tk with
  | Some d => (d =? DNSInconsistent)%string
  | None => false
  end.

(** [p != nil && *p] *)
Definition holds (p : option bool) : bool :=
  match p with
  | Some b => b
  | None => false
  end.

Definition content_matches (tk : TestKeys) : bool :=
  holds (StatusCodeMatch tk)
  && (holds (BodyLengthMatch tk) || holds (HeadersMatch tk)
      || holds (TitleMatch tk)).

Definition override_applies (tk : TestKeys) (out : Summary) : bool :=
  not_nil (BlockingReason out) && (len (Requests tk) =? 1)
  && dns_inconsistent tk.

(** The summary that the body returns, rule by rule; [Summarize_body] is
    proved to return it on every record. *)
Definition verdict (tk : TestKeys) (out : Summary) : Summary :=
  if https_shortcut tk then set_Accessible out (Some accessible) else
  if not_nil (ControlFailure tk) then out else
  if nxdomain_consistent tk then out else
  if tcp_total_failure tk then
    match DNSConsistency tk with
    | Some d => switch_DNSConsistency d out
    | None => out
    end
  else
  if not_nil (HTTPFailure (HTTPRequest (Control tk))) then out else
  match Requests tk with
  | [] => out
  | r :: _ =>
      match archival.Failure r with
      | Some f =>
          let out' := switch_Failure f out in
          if override_applies tk out'
          then set_BlockingReason out' (Some dns)
          else out'
      | None =>
          if content_matches tk then set_Accessible out (Some accessible)
          else if dns_inconsistent tk then blocked out dns
          else blocked out httpDiff
      end
  end.

Definition blocking_of (s : Summary) : BlockingValue :=
  match Accessible s with
  | Some true => BlockingBool false
  | _ => BlockingString (BlockingReason s)
  end.

(** ** The path conditions of the rules *)

(** The TCP connect rule is the first one that matches, with DNS
    verdict [d]. *)
Definition tcp_rule_matches (tk : TestKeys) (d : string) : Prop :=
  https_shortcut tk = false
  /\ ControlFailure tk = None
  /\ nxdomain_consistent tk = false
  /\ 0 < TCPConnectAttempts tk
  /\ TCPConnectSuccesses tk <= 0
  /\ DNSConsistency tk = Some d.

(** No rule before the examination of the requests matches: not the
    HTTPS one, nor the three about the control, the DNS and the TCP
    connects, and the HTTP request of the control did not fail. *)
Definition reaches_requests (tk : TestKeys) : Prop :=
  https_shortcut tk = false
  /\ ControlFailure tk = None
  /\ nxdomain_consistent tk = false
  /\ tcp_total_failure tk = false
  /\ HTTPFailure (HTTPRequest (Control tk)) = None.

(** The failures that the switch on the first request has a case for. *)
Definition classified_failures : list string :=
  [modelx.FailureConnectionRefused; modelx.FailureConnectionReset;
   modelx.FailureDNSNXDOMAINError; modelx.FailureEOFError;
   modelx.FailureGenericTimeoutError; modelx.FailureSSLInvalidHostname;
   modelx.FailureSSLInvalidCertificate; modelx.FailureSSLUnknownAuthority].

Definition reasons : list string := [dns; tcpIP; httpFailure; httpDiff].

(** The three shapes of the two verdict fields of a summary. *)
Definition undetermined (s : Summary) : Prop :=
  Accessible s = None /\ BlockingReason s = None.

Definition reachable (s : Summary) : Prop :=
  Accessible s = Some true /\ BlockingReason s = None.

Definition blocked_by (reason : string) (s : Summary) : Prop :=
  Accessible s = Some false /\ BlockingReason s = Some reason.

Definition settled (s : Summary) : Prop :=
  undetermined s \/ reachable s
  \/ exists reason, In reason reasons /\ blocked_by reason s.

(** ** Records used as examples *)

Definition entry (url : string) (failure : option string)
  : archival.RequestEntry :=
  {| archival.Failure := failure;
     archival.Request := {| archival.URL := url |} |}.

Definition keys (requests : list archival.RequestEntry)
    (control_failure dns_failure consistency : option string)
    (attempts successes : Z) (status body : option bool) : TestKeys :=
  {| DNSExperimentFailure := dns_failure;
     DNSConsistency := consistency;
     ControlFailure := control_failure;
     Control := {| HTTPRequest := {| HTTPFailure := None |} |};
     TCPConnectSuccesses := successes;
     TCPConnectAttempts := attempts;
     Requests := requests;
     StatusCodeMatch := status;
     BodyLengthMatch := body;
     HeadersMatch := None;
     TitleMatch := None |}.

(** Every optional field absent, both counters zero. *)
Definition empty_keys : TestKeys := keys [] None None None 0 0 None None.

(** A successful HTTPS request while the control could not be contacted. *)
Definition https_keys : TestKeys :=
  keys [entry "https://example.org/" None] (Some "unknown_failure")
       None None 0 0 None None.

(** No request recorded, every connect failed, consistent DNS. *)
Definition tcp_keys : TestKeys :=
  keys [] None None (Some DNSConsistent) 3 0 None None.

(** A refused first request followed by a second entry. *)
Definition refused_keys : TestKeys :=
  keys [entry "http://example.org/" (Some "connection_refused");
        entry "http://example.org/next" None]
       None None (Some DNSInconsistent) 0 0 None None.

(** A refused single request with an inconsistent DNS. *)
Definition refused_lying_keys : TestKeys :=
  keys [entry "http://example.org/" (Some "connection_refused")]
       None None (Some DNSInconsistent) 0 0 None None.

(** A successful HTTP request whose status code and body length match. *)
Definition matching_keys : TestKeys :=
  keys [entry "http://example.org/" None]
       None None None 0 0 (Some true) (Some true).

(** The control could not be contacted and nothing was fetched. *)
Definition control_failed_keys : TestKeys :=
  keys [] (Some "unknown_failure") None None 0 0 None None.

(** The name does not resolve for the probe, and the control agrees. *)
Definition nxdomain_keys : TestKeys :=
  keys [] None (Some "dns_nxdomain_error") (Some DNSConsistent)
       3 0 None None.

(** ** Helper lemmas *)

Lemma len_nil (A : Type) : len (@nil A) = 0.
Proof. reflexivity. Qed.

Lemma len_cons_pos (A : Type) (a : A) (l : list A) : 0 < len (a :: l).
Proof. unfold len. simpl length. lia. Qed.

Lemma DetermineBlocking_returns (s : Summary) :
  DetermineBlocking s = Ok (blocking_of s).
Proof.
  unfold DetermineBlocking, blocking_of.
  destruct (Accessible s) as [[|]|]; reflexivity.
Qed.

Lemma len_cons_ltb (A : Type) (a : A) (l : list A) :
  (0 <? len (a :: l)) = true /\ (len (a :: l) <? 1) = false.
Proof.
  pose proof (len_cons_pos A a l) as H. split.
  - apply Z.ltb_lt. exact H.
  - apply Z.ltb_ge. lia.
Qed.

#[local] Arguments switch_Failure : simpl never.
#[local] Arguments switch_DNSConsistency : simpl never.

(** Case analysis on the next test of a goal, then evaluation. *)
Ltac next_test :=
  match goal with
  | |- context [String.eqb ?a ?b] => destruct (String.eqb a b) eqn:?
  | |- context [Z.ltb ?a ?b] => destruct (Z.ltb a b) eqn:?
  | |- context [Z.leb ?a ?b] => destruct (Z.leb a b) eqn:?
  | |- context [Z.eqb ?a ?b] => destruct (Z.eqb a b) eqn:?
  | |- context [HasPrefix ?a ?b] => destruct (HasPrefix a b) eqn:?
  | |- context [String.prefix ?a ?b] => destruct (String.prefix a b) eqn:?
  end; cbn.

Lemma Summarize_body_returns (tk : TestKeys) (out : Summary) :
  Summarize_body tk out = Ok (verdict tk out).
Proof.
  unfold Summarize_body, verdict, override_applies, https_shortcut,
    nxdomain_consistent, tcp_total_failure, dns_inconsistent,
    content_matches.
  destruct tk as [dnsf cons cf [[chf]] succ att reqs scm blm hm tm].
  cbn [DNSExperimentFailure DNSConsistency ControlFailure Control
       TCPConnectSuccesses TCPConnectAttempts Requests StatusCodeMatch
       BodyLengthMatch HeadersMatch TitleMatch HTTPRequest HTTPFailure].
  destruct reqs as [|r rs].
  - rewrite len_nil.
    destruct cf, dnsf, cons, chf; cbn; repeat next_test; reflexivity.
  - destruct (len_cons_ltb _ r rs) as [-> ->].
    generalize (len (r :: rs) =? 1). intros single.
    destruct r as [[f|] [url]].
    + cbn. generalize (switch_Failure f out). intros classified.
      destruct classified as [a [reason|] b], single, cf, dnsf, cons, chf;
        cbn; repeat next_test; reflexivity.
    + destruct cf, dnsf, cons, chf, scm as [[|]|], blm as [[|]|],
        hm as [[|]|], tm as [[|]|];
        cbn; repeat next_test; reflexivity.
Qed.

Lemma Summarize_returns (tk : TestKeys) :
  Summarize tk
  = Ok (set_Blocking (verdict tk zero_Summary)
                     (blocking_of (verdict tk zero_Summary))).
Proof.
  unfold Summarize. rewrite Summarize_body_returns. cbn [bind].
  rewrite DetermineBlocking_returns. reflexivity.
Qed.

Lemma holds_true (p : option bool) : holds p = true <-> p = Some true.
Proof.
  destruct p as [[|]|]; cbn; split; intros H;
    solve [reflexivity | discriminate H].
Qed.

Lemma content_matches_iff (tk : TestKeys) :
  content_matches tk = true
  <-> StatusCodeMatch tk = Some true
      /\ (BodyLengthMatch tk = Some true \/ HeadersMatch tk = Some true
          \/ TitleMatch tk = Some true).
Proof.
  unfold content_matches.
  rewrite andb_true_iff, !orb_true_iff, !holds_true. tauto.
Qed.

Lemma dns_inconsistent_iff (tk : TestKeys) :
  dns_inconsistent tk = true <-> DNSConsistency tk = Some DNSInconsistent.
Proof.
  unfold dns_inconsistent. destruct (DNSConsistency tk) as [d|].
  - rewrite String.eqb_eq. split; congruence.
  - split; discriminate.
Qed.

(** The outcomes of the two switches. *)
Lemma switch_Failure_cases (f : string) (out : Summary) :
  switch_Failure f out = out
  \/ exists reason, In reason [tcpIP; httpFailure; dns]
                    /\ switch_Failure f out = blocked out reason.
Proof.
  unfold switch_Failure.
  repeat match goal with
    | |- context [if ?b then _ else _] => destruct b
    end;
    solve [ left; reflexivity
          | right; eexists; split; [|reflexivity]; cbn; tauto ].
Qed.

Lemma switch_DNSConsistency_cases (d : string) (out : Summary) :
  switch_DNSConsistency d out = out
  \/ exists reason, In reason [tcpIP; dns]
                    /\ switch_DNSConsistency d out = blocked out reason.
Proof.
  unfold switch_DNSConsistency.
  repeat match goal with
    | |- context [if ?b then _ else _] => destruct b
    end;
    solve [ left; reflexivity
          | right; eexists; split; [|reflexivity]; cbn; tauto ].
Qed.

Lemma blocked_settled (out : Summary) (reason : string) :
  In reason reasons -> settled (blocked out reason).
Proof.
  intros Hin. right. right. exists reason. split; [exact Hin|].
  split; reflexivity.
Qed.

Lemma reasons_of_switches (reason : string) :
  In reason [tcpIP; httpFailure; dns] \/ In reason [tcpIP; dns] ->
  In reason reasons.
Proof. cbn. intuition. Qed.

Lemma verdict_settled (tk : TestKeys) : settled (verdict tk zero_Summary).
Proof.
  assert (Hzero : settled zero_Summary) by (left; split; reflexivity).
  assert (Hacc : settled (set_Accessible zero_Summary (Some accessible)))
    by (right; left; split; reflexivity).
  unfold verdict.
  destruct (https_shortcut tk); [exact Hacc|].
  destruct (not_nil (ControlFailure tk)); [exact Hzero|].
  destruct (nxdomain_consistent tk); [exact Hzero|].
  destruct (tcp_total_failure tk).
  { destruct (DNSConsistency tk) as [d|]; [|exact Hzero].
    destruct (switch_DNSConsistency_cases d zero_Summary)
      as [-> | (reason & Hin & ->)]; [exact Hzero|].
    apply blocked_settled, reasons_of_switches. right. exact Hin. }
  destruct (not_nil (HTTPFailure (HTTPRequest (Control tk))));
    [exact Hzero|].
  destruct (Requests tk) as [|r rs]; [exact Hzero|].
  destruct (archival.Failure r) as [f|].
  - cbv zeta.
    destruct (switch_Failure_cases f zero_Summary)
      as [-> | (reason & Hin & ->)].
    + unfold override_applies. exact Hzero.
    + destruct (override_applies tk (blocked zero_Summary reason)).
      * right. right. exists dns. split; [cbn; tauto|].
        split; reflexivity.
      * apply blocked_settled, reasons_of_switches. left. exact Hin.
  - destruct (content_matches tk); [exact Hacc|].
    destruct (dns_inconsistent tk); apply blocked_settled; cbn; tauto.
Qed.

(** What the rules before the requests leave to decide. *)
Lemma verdict_reaches_requests (tk : TestKeys) (out : Summary) :
  reaches_requests tk ->
  verdict tk out
  = match Requests tk with
    | [] => out
    | r :: _ =>
        match archival.Failure r with
        | Some f =>
            if override_applies tk (switch_Failure f out)
            then set_BlockingReason (switch_Failure f out) (Some dns)
            else switch_Failure f out
        | None =>
            if content_matches tk then set_Accessible out (Some accessible)
            else if dns_inconsistent tk then blocked out dns
            else blocked out httpDiff
        end
    end.
Proof.
  intros (H1 & H2 & H3 & H4 & H5). unfold verdict.
  rewrite H1, H2, H3, H4, H5. reflexivity.
Qed.

Lemma verdict_tcp_rule (tk : TestKeys) (d : string) (out : Summary) :
  tcp_rule_matches tk d -> verdict tk out = switch_DNSConsistency d out.
Proof.
  intros (H1 & H2 & H3 & H4 & H5 & H6). unfold verdict, tcp_total_failure.
  rewrite H1, H2, H3, H6.
  apply Z.ltb_lt in H4. apply Z.leb_le in H5. rewrite H4, H5.
  reflexivity.
Qed.

Lemma not_nil_true (A : Type) (p : option A) :
  not_nil p = true <-> p <> None.
Proof.
  destruct p; cbn; split; intros H;
    solve [reflexivity | discriminate | congruence].
Qed.

Lemma override_applies_iff (tk : TestKeys) (out : Summary) :
  override_applies tk out = true
  <-> BlockingReason out <> None
      /\ length (Requests tk) = 1%nat
      /\ DNSConsistency tk = Some DNSInconsistent.
Proof.
  unfold override_applies, len.
  rewrite !andb_true_iff, not_nil_true, dns_inconsistent_iff, Z.eqb_eq.
  intuition lia.
Qed.

(** A summary in which the switch on the failure set a reason is a
    blocked one. *)
Lemma switch_Failure_blocked (f : string) :
  BlockingReason (switch_Failure f zero_Summary) <> None ->
  Accessible (switch_Failure f zero_Summary) = Some false.
Proof.
  destruct (switch_Failure_cases f zero_Summary)
    as [-> | (reason & _ & ->)]; intros H.
  - contradiction H. reflexivity.
  - reflexivity.
Qed.

Lemma switch_Failure_unclassified (f : string) (out : Summary) :
  ~ In f classified_failures -> switch_Failure f out = out.
Proof.
  intros Hnot. unfold switch_Failure.
  repeat match goal with
    | |- context [String.eqb f ?c] =>
        destruct (String.eqb_spec f c) as [Heq|_];
        [contradiction Hnot; rewrite Heq; cbn; tauto|]
    end.
  reflexivity.
Qed.

(** Rewrites a goal [exists s, Summarize tk = Ok s /\ P s] into [P] of the
    summary that [Summarize] returns. *)
Ltac returned :=
  rewrite Summarize_returns; eexists; split; [reflexivity|];
  cbn [Accessible BlockingReason Blocking set_Blocking].

(** ** The properties of the summary *)

(** C1. When at least one request was recorded, the URL of the first one
    starts with the https scheme and that request has no failure,
    [Summarize] returns a summary whose [Accessible] is present and true,
    whatever the other fields of the record are. *)
Theorem Summarize_https_shortcut
    (tk : TestKeys) (r : archival.RequestEntry)
    (rs : list archival.RequestEntry) :
  Requests tk = r :: rs ->
  HasPrefix (archival.URL (archival.Request r)) "https://" = true ->
  archival.Failure r = None ->
  exists s, Summarize tk = Ok s /\ Accessible s = Some true.
Proof.
  intros Hreqs Hscheme Hfailure. returned.
  unfold verdict, https_shortcut.
  rewrite Hreqs, Hfailure, Hscheme. reflexivity.
Qed.

Lemma Summarize_https_shortcut_witness :
  Requests https_keys = [entry "https://example.org/" None]
  /\ ControlFailure https_keys = Some "unknown_failure"
  /\ exists s, Summarize https_keys = Ok s /\ Accessible s = Some true.
Proof.
  split; [reflexivity|]. split; [reflexivity|].
  apply (Summarize_https_shortcut
           https_keys (entry "https://example.org/" None) []);
    reflexivity.
Defined.

(** C2. The rendered [Blocking] of the summary that [Summarize] returns
    is the boolean false when [Accessible] is present and true, null when
    [Accessible] is absent, and the [BlockingReason] string when
    [Accessible] is present and false. *)
Theorem Summarize_blocking_tristate (tk : TestKeys) :
  exists s, Summarize tk = Ok s /\
    match Accessible s with
    | Some true =>
        Blocking s = BlockingBool false /\ render (Blocking s) = JFalse
    | None => render (Blocking s) = JNull
    | Some false =>
        exists reason, BlockingReason s = Some reason
                       /\ render (Blocking s) = JString reason
    end.
Proof.
  returned. unfold blocking_of.
  destruct (verdict_settled tk)
    as [[Ha Hr] | [[Ha Hr] | (reason & _ & Ha & Hr)]];
    rewrite Ha, ?Hr.
  - reflexivity.
  - split; reflexivity.
  - exists reason. split; reflexivity.
Qed.

(** C10. In the summary that [Summarize] returns, [BlockingReason] is
    present exactly when [Accessible] is present and false, and is then one
    of dns, tcp_ip, http-failure and http-diff; so the rendered [Blocking]
    is a reason string exactly when [Accessible] is false, and null
    exactly when [Accessible] is absent. *)
Theorem Summarize_reason_invariant (tk : TestKeys) :
  exists s, Summarize tk = Ok s /\
    ((exists reason, BlockingReason s = Some reason)
     <-> Accessible s = Some false) /\
    (forall reason, BlockingReason s = Some reason ->
       In reason ["dns"; "tcp_ip"; "http-failure"; "http-diff"]) /\
    ((exists reason, render (Blocking s) = JString reason)
     <-> Accessible s = Some false) /\
    (render (Blocking s) = JNull <-> Accessible s = None).
Proof.
  returned. unfold blocking_of.
  destruct (verdict_settled tk)
    as [[Ha Hr] | [[Ha Hr] | (reason & Hin & Ha & Hr)]];
    rewrite Ha, ?Hr; cbn [render].
  - repeat split; try discriminate; try reflexivity;
      intros [reason H]; discriminate H.
  - repeat split; try discriminate; try reflexivity;
      intros [reason H]; discriminate H.
  - repeat split; try discriminate; try reflexivity.
    + exists reason. reflexivity.
    + intros reason' H. injection H as <-. exact Hin.
    + exists reason. reflexivity.
Qed.

(** C3. On a record that no earlier rule catches, with
    [TCPConnectAttempts > 0], [TCPConnectSuccesses <= 0] and a present
    [DNSConsistency]: a consistent DNS gives [Accessible = false] with
    reason tcp_ip, an inconsistent one gives [Accessible = false] with
    reason dns, any other value leaves both absent; and the summary is
    the same for every record on which the rule matches with that DNS
    verdict, so nothing that comes later in the function changes it. *)
Theorem Summarize_tcp_total_failure (tk : TestKeys) (d : string) :
  tcp_rule_matches tk d ->
  exists s, Summarize tk = Ok s /\
    (d = DNSConsistent -> blocked_by "tcp_ip" s) /\
    (d = DNSInconsistent -> blocked_by "dns" s) /\
    (d <> DNSConsistent -> d <> DNSInconsistent -> undetermined s) /\
    (forall tk', tcp_rule_matches tk' d -> Summarize tk' = Ok s).
Proof.
  intros Hrule.
  rewrite Summarize_returns, (verdict_tcp_rule tk d) by exact Hrule.
  eexists. split; [reflexivity|].
  split; [|split; [|split]].
  - intros ->. split; reflexivity.
  - intros ->. split; reflexivity.
  - intros Hc Hi. unfold switch_DNSConsistency.
    apply String.eqb_neq in Hc, Hi. rewrite Hc, Hi. split; reflexivity.
  - intros tk' Hrule'.
    rewrite Summarize_returns, (verdict_tcp_rule tk' d) by exact Hrule'.
    reflexivity.
Qed.

Lemma Summarize_tcp_total_failure_witness :
  tcp_rule_matches tcp_keys DNSConsistent
  /\ exists s, Summarize tcp_keys = Ok s /\ blocked_by "tcp_ip" s.
Proof.
  assert (Hrule : tcp_rule_matches tcp_keys DNSConsistent).
  { unfold tcp_rule_matches. cbn. repeat split; try reflexivity; lia. }
  split; [exact Hrule|].
  destruct (Summarize_tcp_total_failure tcp_keys DNSConsistent Hrule)
    as (s & Hs & Hcons & _).
  exists s. split; [exact Hs | apply Hcons; reflexivity].
Defined.

(** C7, as the code has it. When [ControlFailure] is present and the
    record is not caught by the HTTPS rule, which comes first, both
    [Accessible] and [BlockingReason] are absent in the summary. *)
Theorem Summarize_control_failure (tk : TestKeys) :
  https_shortcut tk = false ->
  ControlFailure tk <> None ->
  exists s, Summarize tk = Ok s
            /\ Accessible s = None /\ BlockingReason s = None.
Proof.
  intros Hhttps Hcontrol. returned.
  apply not_nil_true in Hcontrol.
  unfold verdict. rewrite Hhttps, Hcontrol. split; reflexivity.
Qed.

Lemma Summarize_control_failure_witness :
  https_shortcut control_failed_keys = false
  /\ ControlFailure control_failed_keys <> None
  /\ exists s, Summarize control_failed_keys = Ok s
               /\ Accessible s = None /\ BlockingReason s = None.
Proof.
  split; [reflexivity|]. split; [discriminate|].
  apply (Summarize_control_failure control_failed_keys);
    [reflexivity | discriminate].
Defined.

(** C7, as the claim has it, fails: with a successful HTTPS first request
    a record whose [ControlFailure] is present is summarized as
    accessible. *)
Lemma control_failure_with_https_is_accessible :
  ControlFailure https_keys <> None
  /\ Summarize https_keys
     = Ok {| Accessible := Some true;
             BlockingReason := None;
             Blocking := BlockingBool false |}
  /\ ~ (exists s, Summarize https_keys = Ok s
                  /\ Accessible s = None /\ BlockingReason s = None).
Proof.
  split; [discriminate|]. split; [reflexivity|].
  intros (s & Hs & Ha & _).
  assert (Hrun : Summarize https_keys
                 = Ok {| Accessible := Some true;
                         BlockingReason := None;
                         Blocking := BlockingBool false |})
    by reflexivity.
  rewrite Hrun in Hs. injection Hs as <-. discriminate Ha.
Qed.

(** C8. On a record that the HTTPS rule does not catch and whose
    [ControlFailure] is absent, when the DNS experiment failed with
    dns_nxdomain_error and [DNSConsistency] is present and consistent,
    both [Accessible] and [BlockingReason] are absent in the summary. *)
Theorem Summarize_nxdomain_consistent (tk : TestKeys) :
  https_shortcut tk = false ->
  ControlFailure tk = None ->
  DNSExperimentFailure tk = Some "dns_nxdomain_error" ->
  DNSConsistency tk = Some DNSConsistent ->
  exists s, Summarize tk = Ok s
            /\ Accessible s = None /\ BlockingReason s = None.
Proof.
  intros Hhttps Hcontrol Hdns Hcons. returned.
  unfold verdict, nxdomain_consistent.
  rewrite Hhttps, Hcontrol, Hdns, Hcons. split; reflexivity.
Qed.

Lemma Summarize_nxdomain_consistent_witness :
  https_shortcut nxdomain_keys = false
  /\ ControlFailure nxdomain_keys = None
  /\ DNSExperimentFailure nxdomain_keys = Some "dns_nxdomain_error"
  /\ DNSConsistency nxdomain_keys = Some DNSConsistent
  /\ exists s, Summarize nxdomain_keys = Ok s
               /\ Accessible s = None /\ BlockingReason s = None.
Proof.
  repeat (split; [reflexivity|]).
  apply (Summarize_nxdomain_consistent nxdomain_keys); reflexivity.
Defined.

(** C4. On a record that reaches the rule of the failed first request,
    the switch on the failure sets: connection_refused to tcp_ip,
    connection_reset to http-failure, dns_nxdomain_error to dns, eof_error
    to http-failure, generic_timeout_error to tcp_ip, and the three ssl
    failures to http-failure, each with [Accessible = false]; any other
    failure leaves both fields absent, in the summary too. The summary
    that [Summarize] returns has the [Accessible] of this classification
    and its reason, unless the override on single-request chains with an
    inconsistent DNS replaces the reason by dns. *)
Theorem Summarize_failure_classification
    (tk : TestKeys) (r : archival.RequestEntry)
    (rs : list archival.RequestEntry) (f : string) :
  reaches_requests tk ->
  Requests tk = r :: rs ->
  archival.Failure r = Some f ->
  exists s, Summarize tk = Ok s /\
    let c := switch_Failure f zero_Summary in
    (f = "connection_refused" -> blocked_by "tcp_ip" c) /\
    (f = "connection_reset" -> blocked_by "http-failure" c) /\
    (f = "dns_nxdomain_error" -> blocked_by "dns" c) /\
    (f = "eof_error" -> blocked_by "http-failure" c) /\
    (f = "generic_timeout_error" -> blocked_by "tcp_ip" c) /\
    (f = "ssl_invalid_hostname" \/ f = "ssl_invalid_certificate"
     \/ f = "ssl_unknown_authority" -> blocked_by "http-failure" c) /\
    (~ In f classified_failures -> undetermined c /\ undetermined s) /\
    Accessible s = Accessible c /\
    BlockingReason s
    = if override_applies tk c then Some "dns" else BlockingReason c.
Proof.
  intros Hreach Hreqs Hfailure.
  rewrite Summarize_returns, verdict_reaches_requests by exact Hreach.
  rewrite Hreqs, Hfailure.
  eexists. split; [reflexivity|].
  cbv zeta. cbn [Accessible BlockingReason Blocking set_Blocking].
  repeat match goal with
    | |- (f = _ -> _) /\ _ =>
        split; [intros ->; split; reflexivity|]
    end.
  split.
  { intros [-> | [-> | ->]]; split; reflexivity. }
  split.
  { intros Hnot.
    rewrite (switch_Failure_unclassified f zero_Summary Hnot).
    repeat split. }
  destruct (override_applies tk (switch_Failure f zero_Summary));
    split; reflexivity.
Qed.

Lemma Summarize_failure_classification_witness :
  reaches_requests refused_keys
  /\ exists s, Summarize refused_keys = Ok s /\ blocked_by "tcp_ip" s.
Proof.
  assert (Hreach : reaches_requests refused_keys)
    by (repeat split; reflexivity).
  split; [exact Hreach|].
  destruct (Summarize_failure_classification
              refused_keys
              (entry "http://example.org/" (Some "connection_refused"))
              [entry "http://example.org/next" None]
              "connection_refused" Hreach eq_refl eq_refl)
    as (s & Hs & Hrefused & _ & _ & _ & _ & _ & _ & Ha & Hr).
  exists s. split; [exact Hs|]. split.
  - rewrite Ha. reflexivity.
  - rewrite Hr. reflexivity.
Defined.

(** C5. On a record that reaches the rule of the failed first request:
    when the classification set a reason, exactly one request was
    recorded and [DNSConsistency] is present and inconsistent, the final
    reason is dns and [Accessible] is false; when the number of requests
    is not one, or [DNSConsistency] is not the inconsistent verdict
    (absent or consistent, for instance), or the classification set no
    reason, both fields are those of the classification. *)
Theorem Summarize_tie_break
    (tk : TestKeys) (r : archival.RequestEntry)
    (rs : list archival.RequestEntry) (f : string) :
  reaches_requests tk ->
  Requests tk = r :: rs ->
  archival.Failure r = Some f ->
  exists s, Summarize tk = Ok s /\
    let c := switch_Failure f zero_Summary in
    (BlockingReason c <> None ->
     length (Requests tk) = 1%nat ->
     DNSConsistency tk = Some DNSInconsistent ->
     blocked_by "dns" s) /\
    (length (Requests tk) <> 1%nat
     \/ DNSConsistency tk <> Some DNSInconsistent
     \/ BlockingReason c = None ->
     Accessible s = Accessible c /\ BlockingReason s = BlockingReason c).
Proof.
  intros Hreach Hreqs Hfailure.
  rewrite Summarize_returns, verdict_reaches_requests by exact Hreach.
  rewrite Hreqs, Hfailure. rewrite <- Hreqs.
  eexists. split; [reflexivity|].
  cbv zeta. cbn [Accessible BlockingReason Blocking set_Blocking].
  pose proof (override_applies_iff tk (switch_Failure f zero_Summary))
    as Hiff.
  destruct (override_applies tk (switch_Failure f zero_Summary)).
  - destruct Hiff as [Hiff _].
    destruct (Hiff eq_refl) as (Hset & Hone & Hlying). split.
    + intros _ _ _. split; [|reflexivity].
      apply switch_Failure_blocked. exact Hset.
    + intros [H | [H | H]]; contradiction.
  - destruct Hiff as [_ Hiff]. split.
    + intros Hset Hone Hlying.
      discriminate (Hiff (conj Hset (conj Hone Hlying))).
    + intros _. split; reflexivity.
Qed.

Lemma Summarize_tie_break_witness :
  reaches_requests refused_lying_keys
  /\ length (Requests refused_lying_keys) = 1%nat
  /\ DNSConsistency refused_lying_keys = Some DNSInconsistent
  /\ exists s, Summarize refused_lying_keys = Ok s /\ blocked_by "dns" s.
Proof.
  assert (Hreach : reaches_requests refused_lying_keys)
    by (repeat split; reflexivity).
  split; [exact Hreach|]. split; [reflexivity|]. split; [reflexivity|].
  destruct (Summarize_tie_break
              refused_lying_keys
              (entry "http://example.org/" (Some "connection_refused"))
              [] "connection_refused" Hreach eq_refl eq_refl)
    as (s & Hs & Hfires & _).
  exists s. split; [exact Hs|].
  apply Hfires; [discriminate | reflexivity | reflexivity].
Defined.

(** C6. On a record that reaches the comparison of the contents (first
    request present and without failure, no earlier rule matched): when
    [StatusCodeMatch] is present and true and one of [BodyLengthMatch],
    [HeadersMatch], [TitleMatch] is present and true, [Accessible] is
    true and [BlockingReason] is absent; otherwise, when [DNSConsistency]
    is present and inconsistent, [Accessible] is false with reason dns;
    otherwise [Accessible] is false with reason http-diff. *)
Theorem Summarize_content_comparison
    (tk : TestKeys) (r : archival.RequestEntry)
    (rs : list archival.RequestEntry) :
  reaches_requests tk ->
  Requests tk = r :: rs ->
  archival.Failure r = None ->
  let matches :=
    StatusCodeMatch tk = Some true
    /\ (BodyLengthMatch tk = Some true \/ HeadersMatch tk = Some true
        \/ TitleMatch tk = Some true) in
  exists s, Summarize tk = Ok s /\
    (matches -> reachable s) /\
    (~ matches -> DNSConsistency tk = Some DNSInconsistent ->
     blocked_by "dns" s) /\
    (~ matches -> DNSConsistency tk <> Some DNSInconsistent ->
     blocked_by "http-diff" s).
Proof.
  intros Hreach Hreqs Hfailure matches.
  rewrite Summarize_returns, verdict_reaches_requests by exact Hreach.
  rewrite Hreqs, Hfailure.
  eexists. split; [reflexivity|].
  cbn [Accessible BlockingReason Blocking set_Blocking].
  pose proof (content_matches_iff tk) as Hcontent.
  pose proof (dns_inconsistent_iff tk) as Hdns.
  fold matches in Hcontent.
  destruct (content_matches tk).
  - assert (Hm : matches) by (apply Hcontent; reflexivity).
    split; [|split].
    + intros _. split; reflexivity.
    + intros Hno. contradiction.
    + intros Hno. contradiction.
  - assert (Hm : ~ matches)
      by (intros Hm; apply Hcontent in Hm; discriminate Hm).
    destruct (dns_inconsistent tk).
    + assert (Hlying : DNSConsistency tk = Some DNSInconsistent)
        by (apply Hdns; reflexivity).
      split; [|split].
      * intros Hyes. contradiction.
      * intros _ _. split; reflexivity.
      * intros _ Hno. contradiction.
    + assert (Hlying : DNSConsistency tk <> Some DNSInconsistent)
        by (intros Hd; apply Hdns in Hd; discriminate Hd).
      split; [|split].
      * intros Hyes. contradiction.
      * intros _ Hyes. contradiction.
      * intros _ _. split; reflexivity.
Qed.

Lemma Summarize_content_comparison_witness :
  reaches_requests matching_keys
  /\ StatusCodeMatch matching_keys = Some true
  /\ BodyLengthMatch matching_keys = Some true
  /\ exists s, Summarize matching_keys = Ok s /\ reachable s.
Proof.
  assert (Hreach : reaches_requests matching_keys)
    by (repeat split; reflexivity).
  split; [exact Hreach|]. split; [reflexivity|]. split; [reflexivity|].
  destruct (Summarize_content_comparison
              matching_keys (entry "http://example.org/" None) []
              Hreach eq_refl eq_refl)
    as (s & Hs & Hmatch & _).
  exists s. split; [exact Hs|].
  apply Hmatch. split; [reflexivity | left; reflexivity].
Defined.

(** C9, as the code has it. [Summarize] returns a summary on every
    record, so that no dereference of an absent field and no index out of
    range is ever reached; on a record without requests and without
    control failure on which the TCP connect rule does not match, both
    [Accessible] and [BlockingReason] are absent; such is the record with
    every optional field absent and both counters zero. *)
Theorem Summarize_total :
  (forall tk : TestKeys,
      exists s, Summarize tk = Ok s /\
        (Requests tk = [] ->
         ControlFailure tk = None ->
         tcp_total_failure tk = false ->
         Accessible s = None /\ BlockingReason s = None))
  /\ Summarize empty_keys
     = Ok {| Accessible := None;
             BlockingReason := None;
             Blocking := BlockingString None |}.
Proof.
  split; [|reflexivity].
  intros tk. returned.
  intros Hreqs Hcontrol Htcp.
  unfold verdict, https_shortcut. rewrite Hreqs, Hcontrol, Htcp.
  cbn [not_nil is_nil negb].
  destruct (nxdomain_consistent tk); [split; reflexivity|].
  destruct (not_nil (HTTPFailure (HTTPRequest (Control tk))));
    split; reflexivity.
Qed.

Lemma Summarize_total_witness :
  Requests empty_keys = []
  /\ ControlFailure empty_keys = None
  /\ tcp_total_failure empty_keys = false
  /\ exists s, Summarize empty_keys = Ok s
               /\ Accessible s = None /\ BlockingReason s = None.
Proof.
  repeat (split; [reflexivity|]).
  destruct (proj1 Summarize_total empty_keys) as (s & Hs & Habsent).
  exists s. split; [exact Hs|].
  apply Habsent; reflexivity.
Defined.

(** C9, as the claim has it, fails in its last part: a record without
    requests and without control failure, on which every connect failed
    and the DNS is consistent, is summarized as blocked at the TCP/IP
    level by the rule on the connects, which comes before the one on the
    absence of requests. *)
Lemma no_requests_with_failed_connects_is_blocked :
  Requests tcp_keys = []
  /\ ControlFailure tcp_keys = None
  /\ Summarize tcp_keys
     = Ok {| Accessible := Some false;
             BlockingReason := Some "tcp_ip";
             Blocking := BlockingString (Some "tcp_ip") |}
  /\ ~ (exists s, Summarize tcp_keys = Ok s
                  /\ Accessible s = None /\ BlockingReason s = None).
Proof.
  split; [reflexivity|]. split; [reflexivity|]. split; [reflexivity|].
  intros (s & Hs & Ha & _).
  assert (Hrun : Summarize tcp_keys
                 = Ok {| Accessible := Some false;
                         BlockingReason := Some "tcp_ip";
                         Blocking := BlockingString (Some "tcp_ip") |})
    by reflexivity.
  rewrite Hrun in Hs. injection Hs as <-. discriminate Ha.
Qed.

(** ** Further properties of the summary

    What follows reads [Summarize] backwards (which records lead to a given
    verdict) and across records (which fields a verdict does not depend
    on), and covers [DetermineBlocking] and [Summary.Log] on summaries of
    any origin. *)

(** The record [tk] with another list of requests. *)
Definition with_Requests (tk : TestKeys) (requests : list archival.RequestEntry)
  : TestKeys :=
  {| DNSExperimentFailure := DNSExperimentFailure tk;
     DNSConsistency := DNSConsistency tk;
     ControlFailure := ControlFailure tk;
     Control := Control tk;
     TCPConnectSuccesses := TCPConnectSuccesses tk;
     TCPConnectAttempts := TCPConnectAttempts tk;
     Requests := requests;
     StatusCodeMatch := StatusCodeMatch tk;
     BodyLengthMatch := BodyLengthMatch tk;
     HeadersMatch := HeadersMatch tk;
     TitleMatch := TitleMatch tk |}.

(** The record [tk] with other counters of the TCP connects. *)
Definition with_TCPConnect (tk : TestKeys) (attempts successes : Z)
  : TestKeys :=
  {| DNSExperimentFailure := DNSExperimentFailure tk;
     DNSConsistency := DNSConsistency tk;
     ControlFailure := ControlFailure tk;
     Control := Control tk;
     TCPConnectSuccesses := successes;
     TCPConnectAttempts := attempts;
     Requests := Requests tk;
     StatusCodeMatch := StatusCodeMatch tk;
     BodyLengthMatch := BodyLengthMatch tk;
     HeadersMatch := HeadersMatch tk;
     TitleMatch := TitleMatch tk |}.

(** The eight ways out of the body of [Summarize], each with its path
    condition and the value of [out] at the [return]. *)
Inductive taken (tk : TestKeys) : Summary -> Prop :=
| taken_https :
    https_shortcut tk = true ->
    taken tk (set_Accessible zero_Summary (Some accessible))
| taken_control :
    https_shortcut tk = false ->
    ControlFailure tk <> None ->
    taken tk zero_Summary
| taken_nxdomain :
    https_shortcut tk = false ->
    ControlFailure tk = None ->
    nxdomain_consistent tk = true ->
    taken tk zero_Summary
| taken_tcp (d : string) :
    tcp_rule_matches tk d ->
    taken tk (switch_DNSConsistency d zero_Summary)
| taken_control_http :
    https_shortcut tk = false ->
    ControlFailure tk = None ->
    nxdomain_consistent tk = false ->
    tcp_total_failure tk = false ->
    HTTPFailure (HTTPRequest (Control tk)) <> None ->
    taken tk zero_Summary
| taken_no_requests :
    reaches_requests tk ->
    Requests tk = [] ->
    taken tk zero_Summary
| taken_failed (r : archival.RequestEntry) (rs : list archival.RequestEntry)
    (f : string) :
    reaches_requests tk ->
    Requests tk = r :: rs ->
    archival.Failure r = Some f ->
    taken tk (if override_applies tk (switch_Failure f zero_Summary)
              then set_BlockingReason (switch_Failure f zero_Summary)
                                      (Some dns)
              else switch_Failure f zero_Summary)
| taken_compared (r : archival.RequestEntry)
    (rs : list archival.RequestEntry) :
    reaches_requests tk ->
    Requests tk = r :: rs ->
    archival.Failure r = None ->
    taken tk (if content_matches tk
              then set_Accessible zero_Summary (Some accessible)
              else if dns_inconsistent tk then blocked zero_Summary dns
              else blocked zero_Summary httpDiff).

(** The control answered with an HTTP failure to a probe whose first
    request was refused. *)
Definition control_http_failed_keys : TestKeys :=
  {| DNSExperimentFailure := None;
     DNSConsistency := Some DNSConsistent;
     ControlFailure := None;
     Control := {| HTTPRequest := {| HTTPFailure := Some "eof_error" |} |};
     TCPConnectSuccesses := 1;
     TCPConnectAttempts := 1;
     Requests := [entry "http://example.org/" (Some "connection_refused")];
     StatusCodeMatch := None;
     BodyLengthMatch := None;
     HeadersMatch := None;
     TitleMatch := None |}.

Lemma tcp_total_failure_true (tk : TestKeys) :
  tcp_total_failure tk = true
  <-> 0 < TCPConnectAttempts tk /\ TCPConnectSuccesses tk <= 0
      /\ DNSConsistency tk <> None.
Proof.
  unfold tcp_total_failure.
  rewrite !andb_true_iff, Z.ltb_lt, Z.leb_le, not_nil_true. tauto.
Qed.

Lemma verdict_taken (tk : TestKeys) : taken tk (verdict tk zero_Summary).
Proof.
  unfold verdict.
  destruct (https_shortcut tk) eqn:Hhttps; [apply taken_https, Hhttps|].
  destruct (ControlFailure tk) as [cf|] eqn:Hcontrol.
  { apply taken_control; [exact Hhttps | rewrite Hcontrol; discriminate]. }
  cbn [not_nil is_nil negb].
  destruct (nxdomain_consistent tk) eqn:Hnx.
  { apply taken_nxdomain; assumption. }
  destruct (tcp_total_failure tk) eqn:Htcp.
  { apply tcp_total_failure_true in Htcp as (Hatt & Hsucc & Hcons).
    destruct (DNSConsistency tk) as [d|] eqn:Hd; [|contradiction Hcons; easy].
    apply taken_tcp. repeat split; assumption. }
  destruct (HTTPFailure (HTTPRequest (Control tk))) as [chf|] eqn:Hhttp.
  { apply taken_control_http; try assumption. rewrite Hhttp. discriminate. }
  cbn [not_nil is_nil negb].
  assert (Hreach : reaches_requests tk) by (repeat split; assumption).
  destruct (Requests tk) as [|r rs] eqn:Hreqs.
  { apply taken_no_requests; assumption. }
  destruct (archival.Failure r) as [f|] eqn:Hfailure.
  - cbv zeta. eapply taken_failed; eassumption.
  - eapply taken_compared; eassumption.
Qed.

(** The reason that each switch assigns, read backwards. *)
Lemma switch_Failure_reason (f reason : string) :
  BlockingReason (switch_Failure f zero_Summary) = Some reason
  <-> (reason = tcpIP
       /\ In f [modelx.FailureConnectionRefused;
                modelx.FailureGenericTimeoutError])
      \/ (reason = httpFailure
          /\ In f [modelx.FailureConnectionReset; modelx.FailureEOFError;
                   modelx.FailureSSLInvalidHostname;
                   modelx.FailureSSLInvalidCertificate;
                   modelx.FailureSSLUnknownAuthority])
      \/ (reason = dns /\ f = modelx.FailureDNSNXDOMAINError).
Proof.
  unfold switch_Failure.
  repeat match goal with
    | |- context [String.eqb f ?c] =>
        destruct (String.eqb_spec f c) as [->|?]
    end;
    cbn; (split; [intros H; try discriminate H; injection H as <-|]);
    intuition (try discriminate; try congruence).
Qed.

Lemma switch_DNSConsistency_reason (d reason : string) :
  BlockingReason (switch_DNSConsistency d zero_Summary) = Some reason
  <-> (d = DNSConsistent /\ reason = tcpIP)
      \/ (d = DNSInconsistent /\ reason = dns).
Proof.
  unfold switch_DNSConsistency.
  destruct (String.eqb_spec d DNSConsistent) as [->|?];
    [|destruct (String.eqb_spec d DNSInconsistent) as [->|?]];
    cbn; (split; [intros H; try discriminate H; injection H as <-|]);
    intuition (try discriminate; try congruence).
Qed.

Lemma switch_Failure_not_accessible (f : string) :
  Accessible (switch_Failure f zero_Summary) <> Some true.
Proof.
  destruct (switch_Failure_cases f zero_Summary)
    as [-> | (reason & _ & ->)]; discriminate.
Qed.

Lemma switch_DNSConsistency_not_accessible (d : string) :
  Accessible (switch_DNSConsistency d zero_Summary) <> Some true.
Proof.
  destruct (switch_DNSConsistency_cases d zero_Summary)
    as [-> | (reason & _ & ->)]; discriminate.
Qed.

Lemma https_shortcut_true (tk : TestKeys) :
  https_shortcut tk = true
  <-> exists r rs,
        Requests tk = r :: rs /\ archival.Failure r = None
        /\ HasPrefix (archival.URL (archival.Request r)) "https://" = true.
Proof.
  unfold https_shortcut. destruct (Requests tk) as [|r rs].
  - split; [discriminate | intros (r & rs & H & _); discriminate H].
  - rewrite andb_true_iff. split.
    + intros [Hnil Hp]. exists r, rs. repeat split; [|exact Hp].
      destruct (archival.Failure r); [discriminate Hnil | reflexivity].
    + intros (r' & rs' & Heq & Hf & Hp). injection Heq as <- <-.
      rewrite Hf, Hp. split; reflexivity.
Qed.

Lemma switch_Failure_classified (f : string) :
  (exists c, BlockingReason (switch_Failure f zero_Summary) = Some c)
  <-> In f classified_failures.
Proof.
  split.
  - intros [c Hc]. apply switch_Failure_reason in Hc. cbn in Hc |- *.
    intuition.
  - intros Hin. cbn in Hin.
    repeat (destruct Hin as [<- | Hin]; [eexists; reflexivity|]).
    contradiction.
Qed.

(** The reason after the override, on a chain [r :: rs]. *)
Lemma overridden_reason (tk : TestKeys) (r : archival.RequestEntry)
    (rs : list archival.RequestEntry) (f reason : string) :
  Requests tk = r :: rs ->
  BlockingReason
    (if override_applies tk (switch_Failure f zero_Summary)
     then set_BlockingReason (switch_Failure f zero_Summary) (Some dns)
     else switch_Failure f zero_Summary) = Some reason
  <-> exists c,
        BlockingReason (switch_Failure f zero_Summary) = Some c
        /\ ((rs = [] /\ DNSConsistency tk = Some DNSInconsistent
             /\ reason = dns)
            \/ (~ (rs = [] /\ DNSConsistency tk = Some DNSInconsistent)
                /\ reason = c)).
Proof.
  intros Hreqs.
  pose proof (override_applies_iff tk (switch_Failure f zero_Summary))
    as Hiff.
  rewrite Hreqs in Hiff. cbn [length] in Hiff.
  assert (Hone : length rs = 0%nat <-> rs = [])
    by (destruct rs; split; solve [reflexivity | discriminate]).
  destruct (override_applies tk (switch_Failure f zero_Summary)).
  - destruct Hiff as [Hiff _].
    destruct (Hiff eq_refl) as (Hset & Hlen & Hlying).
    assert (Hnil : rs = []) by (apply Hone; lia).
    cbn [BlockingReason set_BlockingReason]. split.
    + intros Hr. injection Hr as <-.
      destruct (BlockingReason (switch_Failure f zero_Summary)) as [c|];
        [|contradiction Hset; reflexivity].
      exists c. split; [reflexivity|]. left. auto.
    + intros (c & _ & [(_ & _ & ->) | (Hno & _)]); [reflexivity|].
      contradiction Hno. auto.
  - destruct Hiff as [_ Hiff]. split.
    + intros Hr. exists reason. split; [exact Hr|]. right.
      split; [|reflexivity]. intros [Hnil Hlying].
      assert (Habs : false = true); [|discriminate Habs].
      apply Hiff. rewrite Hr. subst rs.
      repeat split; [discriminate | exact Hlying].
    + intros (c & Hc & [(Hnil & Hlying & _) | (_ & ->)]); [|exact Hc].
      assert (Habs : false = true); [|discriminate Habs].
      apply Hiff. rewrite Hc. subst rs.
      repeat split; [discriminate | exact Hlying].
Qed.

(** Case analysis on the way out that [Summarize] takes on [tk]: the goal
    [P (verdict tk zero_Summary)] becomes one goal for each way. *)
Ltac by_way_out tk :=
  generalize (verdict_taken tk); generalize (verdict tk zero_Summary);
  let v := fresh "v" in
  let Ht := fresh "Ht" in
  intros v Ht; destruct Ht.

(** X1. When no earlier rule matches and the HTTP request of the control
    has a failure, both [Accessible] and [BlockingReason] are absent,
    whatever the requests of the probe and the comparison flags are. *)
Theorem Summarize_control_http_failure (tk : TestKeys) :
  https_shortcut tk = false ->
  ControlFailure tk = None ->
  nxdomain_consistent tk = false ->
  tcp_total_failure tk = false ->
  HTTPFailure (HTTPRequest (Control tk)) <> None ->
  exists s, Summarize tk = Ok s /\ undetermined s.
Proof.
  intros Hhttps Hcontrol Hnx Htcp Hhttp. returned.
  apply not_nil_true in Hhttp.
  unfold verdict. rewrite Hhttps, Hcontrol, Hnx, Htcp, Hhttp.
  split; reflexivity.
Qed.

Lemma Summarize_control_http_failure_witness :
  https_shortcut control_http_failed_keys = false
  /\ tcp_total_failure control_http_failed_keys = false
  /\ HTTPFailure (HTTPRequest (Control control_http_failed_keys)) <> None
  /\ exists s, Summarize control_http_failed_keys = Ok s /\ undetermined s.
Proof.
  split; [reflexivity|]. split; [reflexivity|]. split; [discriminate|].
  apply (Summarize_control_http_failure control_http_failed_keys);
    solve [reflexivity | discriminate].
Defined.

(** X2. [Accessible] is true in the summary exactly when the first request
    is present without failure and either its URL starts with https://, or
    no earlier rule matched and [StatusCodeMatch] holds together with one
    of [BodyLengthMatch], [HeadersMatch], [TitleMatch]. *)
Theorem Summarize_accessible_iff (tk : TestKeys) :
  exists s, Summarize tk = Ok s /\
    (Accessible s = Some true
     <-> exists r rs,
           Requests tk = r :: rs /\ archival.Failure r = None
           /\ (HasPrefix (archival.URL (archival.Request r)) "https://" = true
               \/ (ControlFailure tk = None
                   /\ nxdomain_consistent tk = false
                   /\ tcp_total_failure tk = false
                   /\ HTTPFailure (HTTPRequest (Control tk)) = None
                   /\ StatusCodeMatch tk = Some true
                   /\ (BodyLengthMatch tk = Some true
                       \/ HeadersMatch tk = Some true
                       \/ TitleMatch tk = Some true)))).
Proof.
  returned. split.
  - by_way_out tk; cbn [Accessible set_Accessible];
      try (intros Habs; discriminate Habs).
    + intros _. apply https_shortcut_true in H as (r & rs & Hr & Hf & Hp).
      exists r, rs. auto.
    + intros Habs.
      contradiction (switch_DNSConsistency_not_accessible d Habs).
    + destruct (override_applies tk (switch_Failure f zero_Summary));
        intros Habs; contradiction (switch_Failure_not_accessible f Habs).
    + destruct H as (_ & Hc & Hnx & Htcp & Hhttp).
      destruct (content_matches tk) eqn:Hm.
      * intros _. apply content_matches_iff in Hm as [Hs Hany].
        exists r, rs. split; [assumption|]. split; [assumption|].
        right. repeat split; assumption.
      * destruct (dns_inconsistent tk); intros Habs; discriminate Habs.
  - intros (r & rs & Hreqs & Hfailure & [Hp | Hrest]).
    + assert (Hhttps : https_shortcut tk = true)
        by (apply https_shortcut_true; exists r, rs; auto).
      unfold verdict. rewrite Hhttps. reflexivity.
    + destruct Hrest as (Hc & Hnx & Htcp & Hhttp & Hs & Hany).
      destruct (https_shortcut tk) eqn:Hhttps.
      { unfold verdict. rewrite Hhttps. reflexivity. }
      rewrite verdict_reaches_requests by (repeat split; assumption).
      rewrite Hreqs, Hfailure.
      assert (Hm : content_matches tk = true)
        by (apply content_matches_iff; auto).
      rewrite Hm. reflexivity.
Qed.

(** X3. The reason is http-diff exactly when no rule before the requests
    matched, the first request is present without failure, the contents do
    not match and [DNSConsistency] is not the inconsistent verdict. *)
Theorem Summarize_http_diff_iff (tk : TestKeys) :
  exists s, Summarize tk = Ok s /\
    (BlockingReason s = Some "http-diff"
     <-> reaches_requests tk
         /\ (exists r rs, Requests tk = r :: rs /\ archival.Failure r = None)
         /\ content_matches tk = false
         /\ DNSConsistency tk <> Some DNSInconsistent).
Proof.
  returned. split.
  - by_way_out tk; cbn [BlockingReason set_Accessible];
      try (intros Habs; discriminate Habs).
    + intros Hr. apply switch_DNSConsistency_reason in Hr.
      destruct Hr as [[_ Hr] | [_ Hr]]; discriminate Hr.
    + destruct (override_applies tk (switch_Failure f zero_Summary)).
      * intros Hr. discriminate Hr.
      * intros Hr. apply switch_Failure_reason in Hr.
        destruct Hr as [[Hr _] | [[Hr _] | [Hr _]]]; discriminate Hr.
    + destruct (content_matches tk); [intros Hr; discriminate Hr|].
      destruct (dns_inconsistent tk) eqn:Hd; [intros Hr; discriminate Hr|].
      intros _. repeat split; try apply H.
      * exists r, rs. auto.
      * intros Hlying. apply dns_inconsistent_iff in Hlying. congruence.
  - intros (Hreach & (r & rs & Hreqs & Hfailure) & Hm & Hd).
    rewrite verdict_reaches_requests by exact Hreach.
    rewrite Hreqs, Hfailure, Hm.
    destruct (dns_inconsistent tk) eqn:Hlying; [|reflexivity].
    apply dns_inconsistent_iff in Hlying. contradiction.
Qed.

(** X4. The reason is http-failure exactly when no rule before the
    requests matched, the first request failed with connection_reset,
    eof_error or one of the three ssl failures, and the override for a
    single request with an inconsistent DNS does not apply. *)
Theorem Summarize_http_failure_iff (tk : TestKeys) :
  exists s, Summarize tk = Ok s /\
    (BlockingReason s = Some "http-failure"
     <-> reaches_requests tk
         /\ exists r rs f,
              Requests tk = r :: rs /\ archival.Failure r = Some f
              /\ In f ["connection_reset"; "eof_error";
                       "ssl_invalid_hostname"; "ssl_invalid_certificate";
                       "ssl_unknown_authority"]
              /\ ~ (rs = [] /\ DNSConsistency tk = Some DNSInconsistent)).
Proof.
  returned. split.
  - by_way_out tk; cbn [BlockingReason set_Accessible];
      try (intros Habs; discriminate Habs).
    + intros Hr. apply switch_DNSConsistency_reason in Hr.
      destruct Hr as [[_ Hr] | [_ Hr]]; discriminate Hr.
    + intros Hr. apply (overridden_reason tk r rs f _ H0) in Hr.
      destruct Hr as (c & Hc & [(_ & _ & Hr) | (Hno & <-)]);
        [discriminate Hr|].
      apply switch_Failure_reason in Hc.
      destruct Hc as [[Hc _] | [[_ Hin] | [Hc _]]];
        [discriminate Hc | | discriminate Hc].
      split; [exact H|]. exists r, rs, f. auto.
    + destruct (content_matches tk); [intros Hr; discriminate Hr|].
      destruct (dns_inconsistent tk); intros Hr; discriminate Hr.
  - intros (Hreach & r & rs & f & Hreqs & Hfailure & Hin & Hno).
    rewrite verdict_reaches_requests by exact Hreach.
    rewrite Hreqs, Hfailure.
    apply (overridden_reason tk r rs f _ Hreqs).
    exists httpFailure. split; [|right; split; [exact Hno | reflexivity]].
    apply switch_Failure_reason. right. left. split; [reflexivity|exact Hin].
Qed.

(** X5. The reason is tcp_ip exactly when either the TCP connect rule is
    the first to match with a consistent DNS, or no rule before the
    requests matched, the first request failed with connection_refused or
    generic_timeout_error, and the override for a single request with an
    inconsistent DNS does not apply. *)
Theorem Summarize_tcp_ip_iff (tk : TestKeys) :
  exists s, Summarize tk = Ok s /\
    (BlockingReason s = Some "tcp_ip"
     <-> tcp_rule_matches tk DNSConsistent
         \/ (reaches_requests tk
             /\ exists r rs f,
                  Requests tk = r :: rs /\ archival.Failure r = Some f
                  /\ In f ["connection_refused"; "generic_timeout_error"]
                  /\ ~ (rs = []
                        /\ DNSConsistency tk = Some DNSInconsistent))).
Proof.
  returned. split.
  - by_way_out tk; cbn [BlockingReason set_Accessible];
      try (intros Habs; discriminate Habs).
    + intros Hr. apply switch_DNSConsistency_reason in Hr.
      destruct Hr as [[-> _] | [_ Hr]]; [left; exact H | discriminate Hr].
    + intros Hr. apply (overridden_reason tk r rs f _ H0) in Hr.
      destruct Hr as (c & Hc & [(_ & _ & Hr) | (Hno & <-)]);
        [discriminate Hr|].
      apply switch_Failure_reason in Hc.
      destruct Hc as [[_ Hin] | [[Hc _] | [Hc _]]];
        [| discriminate Hc | discriminate Hc].
      right. split; [exact H|]. exists r, rs, f. auto.
    + destruct (content_matches tk); [intros Hr; discriminate Hr|].
      destruct (dns_inconsistent tk); intros Hr; discriminate Hr.
  - intros [Hrule | (Hreach & r & rs & f & Hreqs & Hfailure & Hin & Hno)].
    + rewrite (verdict_tcp_rule tk DNSConsistent) by exact Hrule.
      reflexivity.
    + rewrite verdict_reaches_requests by exact Hreach.
      rewrite Hreqs, Hfailure.
      apply (overridden_reason tk r rs f _ Hreqs).
      exists tcpIP. split; [|right; split; [exact Hno | reflexivity]].
      apply switch_Failure_reason. left. split; [reflexivity|exact Hin].
Qed.

(** X6. The reason is dns exactly in four cases: the TCP connect rule is
    the first to match with an inconsistent DNS; or no rule before the
    requests matched and the first request either failed with
    dns_nxdomain_error, or is the only one, failed with a classified
    failure and the DNS is inconsistent, or did not fail while the contents
    do not match and the DNS is inconsistent. *)
Theorem Summarize_dns_iff (tk : TestKeys) :
  exists s, Summarize tk = Ok s /\
    (BlockingReason s = Some "dns"
     <-> tcp_rule_matches tk DNSInconsistent
         \/ (reaches_requests tk
             /\ exists r rs,
                  Requests tk = r :: rs
                  /\ (archival.Failure r = Some "dns_nxdomain_error"
                      \/ (exists f,
                            archival.Failure r = Some f
                            /\ In f classified_failures
                            /\ rs = []
                            /\ DNSConsistency tk = Some DNSInconsistent)
                      \/ (archival.Failure r = None
                          /\ content_matches tk = false
                          /\ DNSConsistency tk = Some DNSInconsistent)))).
Proof.
  returned. split.
  - by_way_out tk; cbn [BlockingReason set_Accessible];
      try (intros Habs; discriminate Habs).
    + intros Hr. apply switch_DNSConsistency_reason in Hr.
      destruct Hr as [[_ Hr] | [-> _]]; [discriminate Hr | left; exact H].
    + intros Hr. apply (overridden_reason tk r rs f _ H0) in Hr.
      right. split; [exact H|]. exists r, rs. split; [exact H0|].
      destruct Hr as (c & Hc & [(Hnil & Hlying & _) | (_ & <-)]).
      * right. left. exists f. repeat split; try assumption.
        apply switch_Failure_classified. exists c. exact Hc.
      * apply switch_Failure_reason in Hc.
        destruct Hc as [[Hc _] | [[Hc _] | [_ ->]]];
          [discriminate Hc | discriminate Hc | left; exact H1].
    + destruct (content_matches tk) eqn:Hm; [intros Hr; discriminate Hr|].
      destruct (dns_inconsistent tk) eqn:Hd; [|intros Hr; discriminate Hr].
      intros _. right. split; [exact H|]. exists r, rs. split; [exact H0|].
      right. right. apply dns_inconsistent_iff in Hd. auto.
  - intros [Hrule | (Hreach & r & rs & Hreqs & Hcase)].
    + rewrite (verdict_tcp_rule tk DNSInconsistent) by exact Hrule.
      reflexivity.
    + rewrite verdict_reaches_requests by exact Hreach. rewrite Hreqs.
      destruct Hcase
        as [Hf | [(f & Hf & Hin & Hnil & Hlying) | (Hf & Hm & Hlying)]].
      * rewrite Hf. apply (overridden_reason tk r rs _ _ Hreqs).
        exists dns. split; [reflexivity|].
        destruct rs as [|r' rs'];
          [destruct (DNSConsistency tk) as [d|] eqn:Hd;
           [destruct (String.eqb_spec d DNSInconsistent) as [->|Hne]|]|].
        -- left. auto.
        -- right. split; [|reflexivity]. intros [_ Habs]. congruence.
        -- right. split; [|reflexivity]. intros [_ Habs]. discriminate Habs.
        -- right. split; [|reflexivity]. intros [Habs _]. discriminate Habs.
      * rewrite Hf. apply (overridden_reason tk r rs _ _ Hreqs).
        apply switch_Failure_classified in Hin as [c Hc].
        exists c. split; [exact Hc|]. left. auto.
      * rewrite Hf, Hm.
        apply dns_inconsistent_iff in Hlying. rewrite Hlying. reflexivity.
Qed.

(** X7. Of the requests, [Summarize] reads the failure of the first one,
    whether its URL starts with https://, and whether it is the only one:
    replacing the chain by another one that agrees on these three gives the
    same result. *)
Theorem Summarize_reads_first_request
    (tk : TestKeys) (r r' : archival.RequestEntry)
    (rs rs' : list archival.RequestEntry) :
  Requests tk = r :: rs ->
  archival.Failure r' = archival.Failure r ->
  HasPrefix (archival.URL (archival.Request r')) "https://"
  = HasPrefix (archival.URL (archival.Request r)) "https://" ->
  (rs' = [] <-> rs = []) ->
  Summarize (with_Requests tk (r' :: rs')) = Summarize tk.
Proof.
  intros Hreqs Hfailure Hscheme Hsingle.
  rewrite !Summarize_returns.
  assert (Hlen : (len (r' :: rs') =? 1) = (len (r :: rs) =? 1)).
  { unfold len. destruct rs as [|x rs], rs' as [|x' rs']; cbn [length].
    - reflexivity.
    - destruct Hsingle as [_ Habs]. discriminate (Habs eq_refl).
    - destruct Hsingle as [Habs _]. discriminate (Habs eq_refl).
    - transitivity false; [|symmetry]; apply Z.eqb_neq; lia. }
  assert (Hverdict : verdict (with_Requests tk (r' :: rs')) zero_Summary
                     = verdict tk zero_Summary).
  { unfold verdict, https_shortcut, override_applies.
    destruct tk as [dnsf cons cf ctrl succ att reqs scm blm hm tm].
    cbn [with_Requests Requests ControlFailure Control] in *. subst reqs.
    rewrite Hfailure, Hscheme, Hlen. reflexivity. }
  rewrite Hverdict. reflexivity.
Qed.

Lemma Summarize_reads_first_request_witness :
  Requests refused_keys
  = [entry "http://example.org/" (Some "connection_refused");
     entry "http://example.org/next" None]
  /\ Summarize
       (with_Requests refused_keys
          [entry "http://example.com/plain" (Some "connection_refused");
           entry "https://example.com/a" None;
           entry "https://example.com/b" (Some "eof_error")])
     = Summarize refused_keys.
Proof.
  split; [reflexivity|].
  apply (Summarize_reads_first_request
           refused_keys
           (entry "http://example.org/" (Some "connection_refused"))
           (entry "http://example.com/plain" (Some "connection_refused"))
           [entry "http://example.org/next" None]
           [entry "https://example.com/a" None;
            entry "https://example.com/b" (Some "eof_error")]);
    try reflexivity.
  split; intros H; discriminate H.
Defined.

(** X8. With an inconsistent DNS and at most one request recorded, the
    only reason that [Summarize] ever gives is dns. *)
Theorem Summarize_inconsistent_single (tk : TestKeys) :
  DNSConsistency tk = Some DNSInconsistent ->
  (length (Requests tk) <= 1)%nat ->
  exists s, Summarize tk = Ok s /\
    forall reason, BlockingReason s = Some reason -> reason = "dns".
Proof.
  intros Hlying Hlen. returned. intros reason.
  by_way_out tk; cbn [BlockingReason set_Accessible];
    try (intros Habs; discriminate Habs).
  - intros Hr. apply switch_DNSConsistency_reason in Hr.
    destruct H as (_ & _ & _ & _ & _ & Hd).
    rewrite Hlying in Hd. injection Hd as <-.
    destruct Hr as [[Habs _] | [_ ->]]; [discriminate Habs | reflexivity].
  - intros Hr. apply (overridden_reason tk r rs f _ H0) in Hr.
    destruct Hr as (c & _ & [(_ & _ & ->) | (Hno & _)]); [reflexivity|].
    contradiction Hno. split; [|exact Hlying].
    rewrite H0 in Hlen. cbn [length] in Hlen.
    destruct rs; [reflexivity | cbn [length] in Hlen; lia].
  - apply dns_inconsistent_iff in Hlying. rewrite Hlying.
    destruct (content_matches tk); intros Hr;
      [discriminate Hr | injection Hr as <-; reflexivity].
Qed.

Lemma Summarize_inconsistent_single_witness :
  DNSConsistency refused_lying_keys = Some DNSInconsistent
  /\ (length (Requests refused_lying_keys) <= 1)%nat
  /\ exists s, Summarize refused_lying_keys = Ok s /\
       forall reason, BlockingReason s = Some reason -> reason = "dns".
Proof.
  split; [reflexivity|]. split; [cbn; lia|].
  apply (Summarize_inconsistent_single refused_lying_keys);
    [reflexivity | cbn; lia].
Defined.

(** X9. The two counters of the TCP connects count only through the test
    "some attempt and no success", and not at all when [DNSConsistency] is
    absent: other counters that agree on the test, or any counters when
    [DNSConsistency] is absent, give the same result. *)
Theorem Summarize_reads_counters_test
    (tk : TestKeys) (attempts successes : Z) :
  DNSConsistency tk = None
  \/ ((0 < attempts /\ successes <= 0)
      <-> (0 < TCPConnectAttempts tk /\ TCPConnectSuccesses tk <= 0)) ->
  Summarize (with_TCPConnect tk attempts successes) = Summarize tk.
Proof.
  intros Hsame. rewrite !Summarize_returns.
  assert (Htcp : tcp_total_failure (with_TCPConnect tk attempts successes)
                 = tcp_total_failure tk).
  { unfold tcp_total_failure.
    cbn [with_TCPConnect TCPConnectAttempts TCPConnectSuccesses
         DNSConsistency].
    destruct Hsame as [-> | Hsame]; [rewrite !andb_false_r; reflexivity|].
    f_equal.
    destruct ((0 <? attempts) && (successes <=? 0)) eqn:Ha,
      ((0 <? TCPConnectAttempts tk) && (TCPConnectSuccesses tk <=? 0))
        eqn:Hb; try reflexivity.
    - rewrite andb_true_iff, Z.ltb_lt, Z.leb_le in Ha.
      apply Hsame in Ha. rewrite <- Z.ltb_lt, <- Z.leb_le in Ha.
      rewrite <- andb_true_iff in Ha. congruence.
    - rewrite andb_true_iff, Z.ltb_lt, Z.leb_le in Hb.
      apply Hsame in Hb. rewrite <- Z.ltb_lt, <- Z.leb_le in Hb.
      rewrite <- andb_true_iff in Hb. congruence. }
  assert (Hverdict :
            verdict (with_TCPConnect tk attempts successes) zero_Summary
            = verdict tk zero_Summary).
  { unfold verdict. rewrite Htcp. reflexivity. }
  rewrite Hverdict. reflexivity.
Qed.

Lemma Summarize_reads_counters_test_witness :
  DNSConsistency refused_keys <> None
  /\ TCPConnectAttempts refused_keys = 0
  /\ Summarize (with_TCPConnect refused_keys 5 2) = Summarize refused_keys.
Proof.
  split; [discriminate|]. split; [reflexivity|].
  apply (Summarize_reads_counters_test refused_keys 5 2).
  right. cbn. lia.
Defined.

(** X10. On any summary, also one that [Summarize] never builds,
    [DetermineBlocking] returns; the value is rendered as false exactly
    when [Accessible] is present and true, and never as true; otherwise it
    is the [BlockingReason] pointer, so that a reason is shown also when
    [Accessible] is absent; and the [Blocking] that the summary already
    holds is not read. *)
Theorem DetermineBlocking_on_any_summary (s : Summary) :
  exists v, DetermineBlocking s = Ok v /\
    render v <> JTrue /\
    (render v = JFalse <-> Accessible s = Some true) /\
    (Accessible s <> Some true -> v = BlockingString (BlockingReason s)) /\
    (forall old, DetermineBlocking (set_Blocking s old) = Ok v).
Proof.
  exists (blocking_of s). split; [apply DetermineBlocking_returns|].
  unfold blocking_of.
  destruct s as [[[|]|] [reason|] old0]; cbn;
    repeat split; intros; try discriminate; try congruence;
    try reflexivity.
Qed.

(** X11. The summary that [Summarize] returns holds in [Blocking] what
    [DetermineBlocking] computes from that very summary: running the
    deferred step once more changes nothing. *)
Theorem Summarize_blocking_settled (tk : TestKeys) :
  exists s, Summarize tk = Ok s /\
    DetermineBlocking s = Ok (Blocking s) /\
    Blocking s <> BlockingUnset.
Proof.
  returned. rewrite DetermineBlocking_returns. unfold blocking_of.
  cbn [Accessible BlockingReason set_Blocking].
  split; [reflexivity|].
  destruct (Accessible (verdict tk zero_Summary)) as [[|]|]; discriminate.
Qed.

Section Logging.

(** The two helpers of package [internal] that [Log] calls are declared
    outside the file; they are parameters here. *)
Variable StringPointerToString : option string -> string.
Variable BoolPointerToString : option bool -> string.



End Logging.


End webconnectivity.

(** * DASH: the player

    [runner.play] of package [dash] (the first Go file stored in
    [src/experiment/dash/play.go]) consumes what two channels deliver: the
    errors of [errch] and the frames of [playoutbuf], both fed by the
    goroutine [fetch], which is outside the file. The embedding is the
    sequential code of [play] run against a script of what each of its
    receive operations gets, so that every schedule of the two goroutines
    is one script; the clock readings are in the script too. *)

Module dash.

(** [int64] arithmetic wraps around. *)
Definition wrap_int64 (z : Z) : Z := (z + 2 ^ 63) mod 2 ^ 64 - 2 ^ 63.

(** [time.Second], in nanoseconds. *)
Definition Second : Z := 1000000000.

Record playConfig : Type := {
  authorization : string;
  fqdn : string;
  numIterations : Z;
  realAddress : string
}.

Section Play.

(** Go's [float64] with the operations that [play] uses: the conversion
    of an [int64], [*], [/] and [>]. *)
Variable float64 : Type.
Variable float64_of_int64 : Z -> float64.
Variable fmul : float64 -> float64 -> float64.
Variable fdiv : float64 -> float64 -> float64.
Variable fgt : float64 -> float64 -> bool.

(** [humanizex.SI], the values of type [error], and the frames with the
    three fields that [play] reads are declared outside the file. *)
Variable SI : float64 -> string -> string.
Variable error : Type.
Variable clientResults : Type.
Variable Iteration : clientResults -> Z.
Variable Received : clientResults -> Z.
Variable ElapsedTarget : clientResults -> Z.

(** The two fields of [r.tk] that [play] writes: [ReceiverData] and
    [Simple.MinPlayoutDelay]. *)
Record TestKeys : Type := {
  ReceiverData : list clientResults;
  MinPlayoutDelay : float64
}.

(** The calls that [play] makes, in order: the progress callback, the
    timer (with its duration in nanoseconds) and the logger. *)
Inductive call : Type :=
| OnProgress (percentage : float64) (message : string)
| After (d : Z)
| Info (message : string).

(** What a [select] receives: an error from [errch] or a frame from
    [playoutbuf]. *)
Inductive received : Type :=
| FromErrch (err : error)
| FromPlayoutbuf (frame : clientResults).

(** One turn of the loop at its [select]: either a channel was ready, or
    the [default] case ran and the blocking [select] that follows received
    [m] when [time.Now().Sub(begin).Seconds()] was [stall]. *)
Inductive poll : Type :=
| Ready (m : received)
| Stalled (m : received) (stall : float64).

(** [play] has returned [err], or has reached a [select] for which the
    script has no entry: it is still running. *)
Inductive outcome : Type :=
| Returned (err : error) (tk : TestKeys) (calls : list call)
| Receiving (tk : TestKeys) (calls : list call).

Definition percentage (config : playConfig) (frame : clientResults)
  : float64 :=
  fdiv (float64_of_int64 (Iteration frame))
       (float64_of_int64 (numIterations config)).

Definition rate (frame : clientResults) : float64 :=
  fdiv (fmul (float64_of_int64 8) (float64_of_int64 (Received frame)))
       (float64_of_int64 (ElapsedTarget frame)).

Definition message (frame : clientResults) : string :=
  "streaming: play at " ++ SI (rate frame) "bit/s".

Definition stalled_line : string := "streaming: player is stalled".

(** The [for] loop, entered with the current [frame]. *)
Fixpoint playing (config : playConfig) (frame : clientResults)
    (script : list poll) (tk : TestKeys) (calls : list call) : outcome :=
  let tk := {| ReceiverData := (ReceiverData tk ++ [frame])%list;
               MinPlayoutDelay := MinPlayoutDelay tk |} in
  let calls :=
    (calls ++ [OnProgress (percentage config frame) (message frame);
               After (wrap_int64 (ElapsedTarget frame * Second))])%list in
  match script with
  | [] => Receiving tk calls
  | Ready (FromErrch err) :: _ => Returned err tk calls
  | Ready (FromPlayoutbuf frame) :: script =>
      playing config frame script tk calls
  | Stalled m stall :: script =>
      let calls := (calls ++ [Info stalled_line])%list in
      match m with
      | FromErrch err => Returned err tk calls
      | FromPlayoutbuf frame =>
          let tk :=
            if fgt stall (MinPlayoutDelay tk)
            then {| ReceiverData := ReceiverData tk;
                    MinPlayoutDelay := stall |}
            else tk in
          playing config frame script tk calls
      end
  end.

(** [play]: the first [select], which blocks until it receives [first],
    then the loop. *)
Definition play (config : playConfig) (first : option received)
    (script : list poll) (tk : TestKeys) : outcome :=
  match first with
  | None => Receiving tk []
  | Some (FromErrch err) => Returned err tk []
  | Some (FromPlayoutbuf frame) => playing config frame script tk []
  end.

Definition keys_of (o : outcome) : TestKeys :=
  match o with
  | Returned _ tk _ => tk
  | Receiving tk _ => tk
  end.

Definition calls_of (o : outcome) : list call :=
  match o with
  | Returned _ _ calls => calls
  | Receiving _ calls => calls
  end.

Definition message_of (p : poll) : received :=
  match p with
  | Ready m => m
  | Stalled m _ => m
  end.

(** The frames delivered before the first error, and that error. *)
Fixpoint frames_before_error (ms : list received) : list clientResults :=
  match ms with
  | [] => []
  | FromErrch _ :: _ => []
  | FromPlayoutbuf frame :: ms => frame :: frames_before_error ms
  end.

Fixpoint first_error (ms : list received) : option error :=
  match ms with
  | [] => None
  | FromErrch err :: _ => Some err
  | FromPlayoutbuf _ :: ms => first_error ms
  end.

(** The stalls that ended with a frame, before the first error. *)
Fixpoint stalls (script : list poll) : list float64 :=
  match script with
  | [] => []
  | Ready (FromErrch _) :: _ => []
  | Stalled (FromErrch _) _ :: _ => []
  | Ready (FromPlayoutbuf _) :: script => stalls script
  | Stalled (FromPlayoutbuf _) stall :: script => stall :: stalls script
  end.

(** The number of turns that took the [default] case, up to the first
    error included. *)
Fixpoint stalled_turns (script : list poll) : nat :=
  match script with
  | [] => 0
  | Ready (FromErrch _) :: _ => 0
  | Stalled (FromErrch _) _ :: _ => 1
  | Ready (FromPlayoutbuf _) :: script => stalled_turns script
  | Stalled (FromPlayoutbuf _) _ :: script => S (stalled_turns script)
  end.

Definition is_Info (c : call) : bool :=
  match c with
  | Info _ => true
  | _ => false
  end.

(** What playing one frame calls. *)
Definition played (config : playConfig) (frame : clientResults)
  : list call :=
  [OnProgress (percentage config frame) (message frame);
   After (wrap_int64 (ElapsedTarget frame * Second))].

(** ** Properties of the player *)

Lemma playing_outcome (config : playConfig) (script : list poll) :
  forall (frame : clientResults) (tk : TestKeys) (calls : list call),
    ReceiverData (keys_of (playing config frame script tk calls))
    = (ReceiverData tk
       ++ frame :: frames_before_error (map message_of script))%list
    /\ match first_error (map message_of script) with
       | Some err =>
           exists tk' calls',
             playing config frame script tk calls = Returned err tk' calls'
       | None =>
           exists tk' calls',
             playing config frame script tk calls = Receiving tk' calls'
       end.
Proof.
  induction script as [|[[err|next]|[err|next] stall] script IH];
    intros frame tk calls; cbn [playing map message_of frames_before_error
                                first_error].
  - split; [reflexivity | eexists; eexists; reflexivity].
  - split; [reflexivity | eexists; eexists; reflexivity].
  - match goal with
    | |- context [playing config next script ?tk' ?calls'] =>
        destruct (IH next tk' calls') as [Hdata Hout]
    end.
    split; [|exact Hout].
    rewrite Hdata. cbn [ReceiverData]. rewrite <- app_assoc. reflexivity.
  - split; [reflexivity | eexists; eexists; reflexivity].
  - match goal with
    | |- context [playing config next script ?tk' ?calls'] =>
        destruct (IH next tk' calls') as [Hdata Hout]
    end.
    split; [|exact Hout].
    rewrite Hdata.
    destruct (fgt stall _); cbn [ReceiverData MinPlayoutDelay];
      rewrite <- app_assoc; reflexivity.
Qed.

(** X13. [play] returns exactly when [errch] delivers, and it returns what
    was delivered; as long as only frames arrive it keeps running. In both
    cases [ReceiverData] has grown by the frames received before that
    point, in the order of their arrival, each one once. *)
Theorem play_returns_what_errch_delivers
    (config : playConfig) (first : received) (script : list poll)
    (tk : TestKeys) :
  let ms := first :: map message_of script in
  ReceiverData (keys_of (play config (Some first) script tk))
  = (ReceiverData tk ++ frames_before_error ms)%list
  /\ match first_error ms with
     | Some err =>
         exists tk' calls,
           play config (Some first) script tk = Returned err tk' calls
     | None =>
         exists tk' calls,
           play config (Some first) script tk = Receiving tk' calls
     end.
Proof.
  destruct first as [err|frame];
    cbn [play frames_before_error first_error keys_of].
  - split; [symmetry; apply app_nil_r | eexists; eexists; reflexivity].
  - apply playing_outcome.
Qed.

Lemma playing_delay (config : playConfig) :
  (forall x, fgt x x = false) ->
  (forall x y z, fgt x y = true -> fgt y z = true -> fgt x z = true) ->
  forall (script : list poll) (frame : clientResults) (tk : TestKeys)
         (calls : list call),
    let delay :=
      MinPlayoutDelay (keys_of (playing config frame script tk calls)) in
    (delay = MinPlayoutDelay tk \/ fgt delay (MinPlayoutDelay tk) = true)
    /\ In delay (MinPlayoutDelay tk :: stalls script)
    /\ Forall (fun stall => fgt stall delay = false) (stalls script).
Proof.
  intros Hirrefl Htrans.
  assert (Hasym : forall x y, fgt x y = true -> fgt y x = false).
  { intros x y Hxy. destruct (fgt y x) eqn:Hyx; [|reflexivity].
    rewrite <- (Hirrefl x). symmetry. exact (Htrans x y x Hxy Hyx). }
  induction script as [|[[err|next]|[err|next] stall] script IH];
    intros frame tk calls; cbn [playing stalls keys_of MinPlayoutDelay].
  - repeat split; [left; reflexivity | left; reflexivity | constructor].
  - repeat split; [left; reflexivity | left; reflexivity | constructor].
  - match goal with
    | |- context [playing config next script ?tk' ?calls'] =>
        exact (IH next tk' calls')
    end.
  - repeat split; [left; reflexivity | left; reflexivity | constructor].
  - destruct (fgt stall (MinPlayoutDelay tk)) eqn:Hgt.
    + match goal with
      | |- context [playing config next script ?tk' ?calls'] =>
          destruct (IH next tk' calls') as (Hup & Hin & Hall);
          set (delay := MinPlayoutDelay
                          (keys_of (playing config next script tk' calls')))
            in *
      end.
      cbn [MinPlayoutDelay] in Hup, Hin.
      split; [|split].
      * right. destruct Hup as [-> | Hup]; [exact Hgt|].
        exact (Htrans _ _ _ Hup Hgt).
      * right. exact Hin.
      * constructor; [|exact Hall].
        destruct Hup as [-> | Hup]; [apply Hirrefl | apply Hasym, Hup].
    + match goal with
      | |- context [playing config next script ?tk' ?calls'] =>
          destruct (IH next tk' calls') as (Hup & Hin & Hall);
          set (delay := MinPlayoutDelay
                          (keys_of (playing config next script tk' calls')))
            in *
      end.
      cbn [MinPlayoutDelay] in Hup, Hin.
      split; [exact Hup|]. split.
      * destruct Hin as [Hin | Hin]; [left; exact Hin | right; right].
        exact Hin.
      * constructor; [|exact Hall].
        destruct Hup as [-> | Hup]; [exact Hgt|].
        destruct (fgt stall delay) eqn:Hsd; [|reflexivity].
        rewrite <- Hgt. symmetry. exact (Htrans _ _ _ Hsd Hup).
Qed.

(** X14. When [>] on [float64] is irreflexive and transitive, as it is,
    the [MinPlayoutDelay] that [play] leaves is the longest stall seen so
    far: it is the value found at the start or one of the stalls that
    ended with a frame, it is not below the value found at the start, and
    no such stall exceeds it. *)
Theorem play_keeps_longest_stall
    (config : playConfig) (frame : clientResults) (script : list poll)
    (tk : TestKeys) :
  (forall x, fgt x x = false) ->
  (forall x y z, fgt x y = true -> fgt y z = true -> fgt x z = true) ->
  let delay :=
    MinPlayoutDelay
      (keys_of (play config (Some (FromPlayoutbuf frame)) script tk)) in
  (delay = MinPlayoutDelay tk \/ fgt delay (MinPlayoutDelay tk) = true)
  /\ In delay (MinPlayoutDelay tk :: stalls script)
  /\ Forall (fun stall => fgt stall delay = false) (stalls script).
Proof.
  intros Hirrefl Htrans. cbn [play].
  exact (playing_delay config Hirrefl Htrans script frame tk []).
Qed.

Lemma playing_calls (config : playConfig) (script : list poll) :
  forall (frame : clientResults) (tk : TestKeys) (calls : list call),
    filter (fun c => negb (is_Info c))
           (calls_of (playing config frame script tk calls))
    = (filter (fun c => negb (is_Info c)) calls
       ++ flat_map (played config)
            (frame :: frames_before_error (map message_of script)))%list
    /\ filter is_Info (calls_of (playing config frame script tk calls))
       = (filter is_Info calls
          ++ repeat (Info stalled_line) (stalled_turns script))%list.
Proof.
  induction script as [|[[err|next]|[err|next] stall] script IH];
    intros frame tk calls;
    cbn [playing map message_of frames_before_error stalled_turns
         calls_of];
    try match goal with
      | |- context [playing config next script ?tk' ?calls'] =>
          destruct (IH next tk' calls') as [-> ->]
      end;
    rewrite ?filter_app;
    cbn [filter is_Info negb played flat_map repeat];
    rewrite <- ?app_assoc, ?app_nil_r; cbn [app];
    split; reflexivity.
Qed.

(** X15. Entered with a first frame, [play] calls the progress callback and
    then the timer once for each frame received before the first error,
    in the order of arrival, the timer with [ElapsedTarget] seconds of the
    frame as a wrapped [int64] of nanoseconds; apart from these it only
    logs the line of the stalled player, once for each turn in which no
    channel was ready. *)
Theorem play_calls
    (config : playConfig) (frame : clientResults) (script : list poll)
    (tk : TestKeys) :
  let calls :=
    calls_of (play config (Some (FromPlayoutbuf frame)) script tk) in
  filter (fun c => negb (is_Info c)) calls
  = flat_map (played config)
      (frame :: frames_before_error (map message_of script))
  /\ filter is_Info calls
     = repeat (Info stalled_line) (stalled_turns script).
Proof.
  cbn [play]. exact (playing_calls config script frame tk []).
Qed.

End Play.

Arguments FromErrch {error clientResults} err.
Arguments FromPlayoutbuf {error clientResults} frame.
Arguments Ready {float64 error clientResults} m.
Arguments Stalled {float64 error clientResults} m stall.
Arguments Build_TestKeys {float64 clientResults} ReceiverData MinPlayoutDelay.
Arguments ReceiverData {float64 clientResults} t.
Arguments MinPlayoutDelay {float64 clientResults} t.
Arguments keys_of {float64 error clientResults} o.
Arguments stalls {float64 error clientResults} script.

(** A run with integers for the floating-point numbers and for the
    frames, each frame being its own three fields: a first frame, a stall
    of 5, a frame that was ready, a stall of 4, then an error. *)
Definition example_script : list (poll Z string Z) :=
  [Stalled (FromPlayoutbuf 3) 5; Ready (FromPlayoutbuf 1);
   Stalled (FromPlayoutbuf 2) 4; Ready (FromErrch "EOF")].

Definition example_config : playConfig :=
  {| authorization := ""; fqdn := "example.org"; numIterations := 4;
     realAddress := "" |}.

Definition example_play : outcome Z string Z :=
  play Z (fun z => z) Z.mul Z.div Z.gtb (fun _ unit => unit) string Z
       (fun frame => frame) (fun frame => frame) (fun frame => frame)
       example_config (Some (FromPlayoutbuf 2)) example_script
       {| ReceiverData := [7]; MinPlayoutDelay := 1 |}.

Lemma play_keeps_longest_stall_witness :
  ReceiverData (keys_of example_play) = [7; 2; 3; 1; 2]
  /\ MinPlayoutDelay (keys_of example_play) = 5
  /\ In (MinPlayoutDelay (keys_of example_play))
        (1 :: stalls example_script)
  /\ Forall (fun stall => (stall >? MinPlayoutDelay (keys_of example_play))
                          = false)
            (stalls example_script).
Proof.
  split; [reflexivity|]. split; [reflexivity|].
  destruct (play_keeps_longest_stall
              Z (fun z => z) Z.mul Z.div Z.gtb (fun _ unit => unit) string Z
              (fun frame => frame) (fun frame => frame) (fun frame => frame)
              example_config 2 example_script
              {| ReceiverData := [7]; MinPlayoutDelay := 1 |})
    as (_ & Hin & Hall).
  - intros x. rewrite Z.gtb_ltb. apply Z.ltb_irrefl.
  - intros x y z. rewrite !Z.gtb_ltb, !Z.ltb_lt. lia.
  - split; [exact Hin | exact Hall].
Defined.

End dash.
